(** * extract_fqdns.py: FQDN extraction for the Gatus endpoint list

    A shallow embedding of [.github/scripts/extract_fqdns.py] and the
    properties of its loader, extractor, validity filter, de-duplication,
    ordering and endpoint synthesis.

    Python [str] values are embedded as [string]; a character is a code
    point below 256 (the Latin-1 range), which covers every literal of the
    script.  Parsed YAML is a tagged variant, a mapping being an
    association list in insertion order, as a Python [dict] iterates. *)

From Stdlib Require Import Strings.Ascii Strings.String NArith ZArith Lia.
From Stdlib Require Import Sorting.Sorted.
From stdpp Require Import base strings list gmap sets.

(** ** The [str] methods the script calls *)

Module PyStr.

(** [str.isspace] on one code point below 256. *)
Definition isspace (c : ascii) : bool :=
  let n := N_of_ascii c in
  ((9 <=? n) && (n <=? 13) || (28 <=? n) && (n <=? 32)
   || (n =? 133) || (n =? 160))%N.

(** [str.lower] on one code point below 256: A-Z, and the upper-case
    letters of the Latin-1 supplement (all of U+00C0..U+00DE but the
    multiplication sign). *)
Definition lower_char (c : ascii) : ascii :=
  let n := N_of_ascii c in
  if ((65 <=? n) && (n <=? 90)
      || (192 <=? n) && (n <=? 222) && negb (n =? 215))%N
  then ascii_of_N (n + 32) else c.

Fixpoint lower (s : string) : string :=
  match s with
  | EmptyString => EmptyString
  | String c s' => String (lower_char c) (lower s')
  end.

(** [s.startswith(p)] *)
Fixpoint startswith (s p : string) {struct p} : bool :=
  match p, s with
  | EmptyString, _ => true
  | String _ _, EmptyString => false
  | String a p', String b s' => Ascii.eqb a b && startswith s' p'
  end.

(** [p in s] *)
Fixpoint contains (p s : string) : bool :=
  startswith s p ||
  match s with
  | EmptyString => false
  | String _ s' => contains p s'
  end.

Fixpoint lstrip (s : string) : string :=
  match s with
  | EmptyString => EmptyString
  | String c s' => if isspace c then lstrip s' else s
  end.

Fixpoint rstrip (s : string) : string :=
  match s with
  | EmptyString => EmptyString
  | String c s' =>
      match rstrip s' with
      | EmptyString => if isspace c then EmptyString else String c EmptyString
      | r => String c r
      end
  end.

(** [s.strip()] *)
Definition strip (s : string) : string := rstrip (lstrip s).

(** [s.split(sep)] for a one-character separator, the only form the
    script uses ([split("\n")] and [split(".")]). *)
Fixpoint split (sep : ascii) (s : string) : list string :=
  match s with
  | EmptyString => [EmptyString]
  | String c s' =>
      if Ascii.eqb c sep then EmptyString :: split sep s'
      else match split sep s' with
           | h :: t => String c h :: t
           | [] => [String c EmptyString]
           end
  end.

(** [s.replace(old, new)] for a non-empty [old]: every occurrence, left
    to right, without overlap.  [skip] counts the characters of a matched
    occurrence that are still to be dropped. *)
Fixpoint replace_from (old new : string) (skip : nat) (s : string) : string :=
  match s with
  | EmptyString => EmptyString
  | String c s' =>
      match skip with
      | S k => replace_from old new k s'
      | O =>
          if startswith s old
          then new +:+ replace_from old new (String.length old - 1) s'
          else String c (replace_from old new 0 s')
      end
  end.

(** With an empty [old], Python puts [new] before every character and at
    the end. *)
Fixpoint intersperse (new s : string) : string :=
  match s with
  | EmptyString => new
  | String c s' => new +:+ String c (intersperse new s')
  end.

Definition replace (old new s : string) : string :=
  match old with
  | EmptyString => intersperse new s
  | String _ _ => replace_from old new 0 s
  end.

(** [sep.join(parts)] *)
Fixpoint join (sep : string) (parts : list string) : string :=
  match parts with
  | [] => EmptyString
  | [p] => p
  | p :: rest => p +:+ sep +:+ join sep rest
  end.

(** [a < b] on [str]: lexicographic on code points, a proper prefix
    being smaller. *)
Fixpoint ltb (a b : string) : bool :=
  match a, b with
  | _, EmptyString => false
  | EmptyString, String _ _ => true
  | String c a', String d b' =>
      (N_of_ascii c <? N_of_ascii d)%N || Ascii.eqb c d && ltb a' b'
  end.

Definition lt (a b : string) : Prop := ltb a b = true.
Definition le (a b : string) : Prop := ltb b a = false.

End PyStr.

(** ** Parsed YAML *)

Set Warnings "-register-all".

(** What [yaml.safe_load_all] builds.  [POther] stands for the scalars of
    which the script observes the truth value only (floats, timestamps,
    binary data). *)
Inductive scalar :=
  | PNone
  | PBool (b : bool)
  | PInt (n : Z)
  | PStr (s : string)
  | POther (truthy : bool).

Inductive yaml :=
  | YScalar (v : scalar)
  | YList (items : list yaml)
  | YDict (items : list (scalar * yaml)).

(** The truth value of [if doc:]. *)
Definition truthy (doc : yaml) : bool :=
  match doc with
  | YScalar PNone => false
  | YScalar (PBool b) => b
  | YScalar (PInt n) => negb (n =? 0)%Z
  | YScalar (PStr s) => negb (String.eqb s "")
  | YScalar (POther t) => t
  | YList items => match items with [] => false | _ => true end
  | YDict items => match items with [] => false | _ => true end
  end.

(** [key == k] for a string literal [k] *)
Definition key_eq (key : scalar) (k : string) : bool :=
  match key with
  | PStr s => String.eqb s k
  | _ => false
  end.

(** [key in ks] for a list of string literals *)
Definition key_in (key : scalar) (ks : list string) : bool :=
  existsb (key_eq key) ks.

(** [value] when [isinstance(value, str)] *)
Definition as_str (value : yaml) : option string :=
  match value with
  | YScalar (PStr s) => Some s
  | _ => None
  end.

(** [value] when [isinstance(value, list)] *)
Definition as_list (value : yaml) : option (list yaml) :=
  match value with
  | YList l => Some l
  | _ => None
  end.

(** ** The validity filter *)

Definition docker_registries : list string :=
  ["ghcr.io"; "docker.io"; "registry.k8s.io"; "quay.io"].

Definition invalid_patterns : list string :=
  ["example.com"; "example.local"; "chart-example.local"; "localhost";
   "127.0.0.1"; "0.0.0.0"; ".local"; "example.org"; "test.com"].

Definition is_valid_fqdn (fqdn : string) : bool :=
  if PyStr.contains "@" fqdn then false
  else if existsb (fun registry => PyStr.startswith fqdn registry)
            docker_registries then false
  else
    let fqdn_lower := PyStr.lower fqdn in
    if existsb (fun pattern => PyStr.contains pattern fqdn_lower)
         invalid_patterns then false
    else if negb (PyStr.contains "." fqdn)
            || PyStr.contains "{" fqdn
            || PyStr.contains "}" fqdn
            || PyStr.startswith fqdn "{{"
            || PyStr.contains "$(" fqdn then false
    else true.

(** ** The extractor *)

(** The test guarding every [fqdns.append]. *)
Definition accepts (value : string) : bool :=
  PyStr.contains "." value
  && negb (PyStr.startswith value "http")
  && is_valid_fqdn value.

Definition keep (value : string) : list string :=
  if accepts value then [value] else [].

(** The body of the loop over the lines of an inline patch. *)
Definition patch_line (line : string) : list string :=
  let line := PyStr.strip line in
  if PyStr.startswith line "value: " then
    let potential_fqdn := PyStr.strip (PyStr.replace "value: " "" line) in
    keep potential_fqdn
  else [].

Fixpoint extract_fqdn_recursive (obj : yaml)
    (is_ingress_context is_kustomization_context : bool) : list string :=
  match obj with
  | YDict items =>
      flat_map (fun kv =>
        match kv with
        | (key, value) =>
          match (if key_in key ["host"; "commonName"] then as_str value
                 else None) with
          | Some s => keep s
          | None =>
          match (if key_in key ["hosts"; "dnsNames"] then as_list value
                 else None) with
          | Some l =>
              flat_map (fun item =>
                match as_str item with
                | Some s => keep s
                | None => []
                end) l
          | None =>
          match (if key_eq key "value" && is_kustomization_context
                 then as_str value else None) with
          | Some s => keep s
          | None =>
          match (if key_eq key "patch" && is_kustomization_context
                 then as_str value else None) with
          | Some s =>
              (* "010" is the line feed *)
              flat_map patch_line (PyStr.split "010" s)
          | None =>
          match (if key_eq key "path" then as_str value else None) with
          | Some _ => []
          | None =>
              extract_fqdn_recursive value
                is_ingress_context is_kustomization_context
          end end end end end
        end) items
  | YList items =>
      flat_map (fun item =>
        extract_fqdn_recursive item
          is_ingress_context is_kustomization_context) items
  | YScalar _ => []
  end.

(** ** The loader *)

(** A [pathlib] path, as its [parts]; [str(path)] joins them. *)
Definition path := list string.

Definition str_path (file_path : path) : string := PyStr.join "/" file_path.

(** [path.name], the base name *)
Definition base_name (file_path : path) : string := List.last file_path "".

(** What iterating [yaml.safe_load_all(file)] does.  The generator is lazy:
    it hands out one document at a time and raises where the text stops
    parsing, which can be after documents were handed out.  An exception of
    [open] itself is the stream that raises at once. *)
Inductive doc_stream :=
  | Done
  | Yield (doc : yaml) (rest : doc_stream)
  | Raise (e : string).

Definition is_ingress_context (file_path : path) : bool :=
  PyStr.contains "ingress.yaml" (PyStr.lower (str_path file_path)).

Definition is_kustomization_context (file_path : path) : bool :=
  PyStr.contains "kustomization.yaml" (PyStr.lower (str_path file_path)).

(** The [for doc in documents] loop inside [try]: [fqdns] is the list built
    so far, and the second component is the exception that ended the loop,
    if one did. *)
Fixpoint load_loop (file_path : path) (documents : doc_stream)
    (fqdns : list string) : list string * option string :=
  match documents with
  | Done => (fqdns, None)
  | Raise e => (fqdns, Some e)
  | Yield doc rest =>
      load_loop file_path rest
        (if truthy doc
         then fqdns ++ extract_fqdn_recursive doc
                         (is_ingress_context file_path)
                         (is_kustomization_context file_path)
         else fqdns)
  end.

(** The test on the path that makes the loader return at once, before the
    file is opened. *)
Definition is_template_path (file_path : path) : bool :=
  PyStr.contains "/templates/" (str_path file_path)
  || PyStr.contains "\templates\" (str_path file_path).

(** The result is the returned list and the lines printed. *)
Definition find_fqdn_in_yaml (file_path : path) (content : doc_stream)
    : list string * list string :=
  if is_template_path file_path
  then ([], [])
  else
    match load_loop file_path content [] with
    | (fqdns, Some e) =>
        (fqdns,
         ["Erreur lors de la lecture de " +:+ str_path file_path +:+ ": " +:+ e])
    | (fqdns, None) => (fqdns, [])
    end.

(** ** The endpoint synthesizer *)

Record alert := {
  alert_type : string;
  failure_threshold : Z;
  success_threshold : Z
}.

Record endpoint := {
  name : string;
  url : string;
  interval : string;
  conditions : list string;
  alerts : list alert
}.

(** [s.split(".")[0]] *)
Definition first_label (s : string) : string :=
  List.hd "" (PyStr.split "." s).

Definition create_simple_endpoint (fqdn app_name source_file : string)
    : endpoint :=
  let endpoint_name :=
    if PyStr.contains "prodv2" fqdn
    then first_label fqdn +:+ "-prod"
    else first_label fqdn in
  {| name := endpoint_name;
     url := "https://" +:+ fqdn;
     interval := "5m";
     conditions := ["[STATUS] == 200"; "[RESPONSE_TIME] < 3000"];
     alerts := [{| alert_type := "discord";
                   failure_threshold := 3;
                   success_threshold := 2 |}] |}.

(** ** The orchestrator *)

Record endpoint_info := {
  info_fqdn : string;
  info_source_file : string;
  info_app_name : string
}.

Definition app_name_of (path_parts : path) : string :=
  match path_parts with
  | _ :: p1 :: rest =>
      match rest with
      | p2 :: _ =>
          if negb (existsb (String.eqb p2) ["base"; "prod"])
          then p1 +:+ "-" +:+ p2
          else p1
      | [] => p1
      end
  | _ => "unknown"
  end.

(** The [endpoint_info] records made of the FQDNs of one file. *)
Definition records_of (yaml_file : path) (fqdns : list string)
    : list endpoint_info :=
  map (fun fqdn => {| info_fqdn := fqdn;
                      info_source_file := str_path yaml_file;
                      info_app_name := app_name_of yaml_file |}) fqdns.

(** One turn of the loop over the files the two globs enumerate; the state
    is [all_fqdns] and the lines printed so far. *)
Definition visit (st : list endpoint_info * list string)
    (file : path * doc_stream) : list endpoint_info * list string :=
  let '(all_fqdns, out) := st in
  let '(yaml_file, content) := file in
  let '(fqdns, printed) := find_fqdn_in_yaml yaml_file content in
  (all_fqdns ++ records_of yaml_file fqdns,
   out ++ ("Analyse du fichier: " +:+ str_path yaml_file) :: printed).

Definition walk (files : list (path * doc_stream))
    : list endpoint_info * list string :=
  fold_left visit files ([], []).

(** The loop that drops duplicates, keeping the first occurrence. *)
Fixpoint dedup_loop (all_fqdns unique_fqdns : list endpoint_info)
    (seen_fqdns : gset string) : list endpoint_info :=
  match all_fqdns with
  | [] => unique_fqdns
  | endpoint :: rest =>
      if decide (info_fqdn endpoint ∈ seen_fqdns)
      then dedup_loop rest unique_fqdns seen_fqdns
      else dedup_loop rest (unique_fqdns ++ [endpoint])
             (seen_fqdns ∪ {[info_fqdn endpoint]})
  end.

Definition dedup (all_fqdns : list endpoint_info) : list endpoint_info :=
  dedup_loop all_fqdns [] ∅.

(** [list.sort(key=...)]: a stable sort that compares keys with [<] only.
    On short lists CPython runs this very insertion, each element going
    after the elements that are not greater. *)
Fixpoint sort_insert {A} (key : A -> string) (x : A) (l : list A) : list A :=
  match l with
  | [] => [x]
  | y :: l' =>
      if PyStr.ltb (key x) (key y) then x :: l
      else y :: sort_insert key x l'
  end.

Definition list_sort {A} (key : A -> string) (l : list A) : list A :=
  fold_left (fun sorted x => sort_insert key x sorted) l [].

Definition endpoints_of (unique_fqdns : list endpoint_info) : list endpoint :=
  map (fun endpoint_info =>
         create_simple_endpoint (info_fqdn endpoint_info)
           (info_app_name endpoint_info) (info_source_file endpoint_info))
      unique_fqdns.

(** [main], from the collected list to [endpoints_list]. *)
Definition unique_sorted (all_fqdns : list endpoint_info) : list endpoint_info :=
  list_sort info_fqdn (dedup all_fqdns).

Definition main_endpoints (files : list (path * doc_stream)) : list endpoint :=
  endpoints_of (unique_sorted (fst (walk files))).

(** * Vocabulary of the statements *)

(** Induction over parsed YAML, through the lists of a sequence and of a
    mapping. *)

Section YamlInd.

Variable P : yaml -> Prop.
Hypothesis Hscalar : forall v, P (YScalar v).
Hypothesis Hlist : forall items, Forall P items -> P (YList items).
Hypothesis Hdict :
  forall items, Forall (fun kv => P (snd kv)) items -> P (YDict items).

Fixpoint yaml_nested_ind (obj : yaml) : P obj :=
  match obj with
  | YScalar v => Hscalar v
  | YList items =>
      Hlist items
        ((fix go (l : list yaml) : Forall P l :=
            match l with
            | [] => @List.Forall_nil _ _
            | x :: l' => @List.Forall_cons _ _ x l' (yaml_nested_ind x) (go l')
            end) items)
  | YDict items =>
      Hdict items
        ((fix go (l : list (scalar * yaml))
            : Forall (fun kv => P (snd kv)) l :=
            match l with
            | [] => @List.Forall_nil _ _
            | kv :: l' =>
                @List.Forall_cons _ _ kv l' (yaml_nested_ind (snd kv)) (go l')
            end) items)
  end.

End YamlInd.

(** What one entry of a mapping adds to the result. *)
Definition entry_fqdns (ing kus : bool) (kv : scalar * yaml) : list string :=
  extract_fqdn_recursive (YDict [kv]) ing kus.

(** The keys the extractor has a rule for. *)
Definition recognized_keys : list string :=
  ["host"; "commonName"; "hosts"; "dnsNames"; "value"; "patch"; "path"].

(** [s] begins with [p]. *)
Definition starts_with (p s : string) : Prop := exists t, s = p +:+ t.

(** [p] occurs in [s]. *)
Definition occurs (p s : string) : Prop := exists a b, s = a +:+ p +:+ b.

(** [p] occurs in [s] when case is ignored: a piece of [s] and [p] are the
    same once both are lower-cased. *)
Definition occurs_ignoring_case (p s : string) : Prop :=
  exists a t b, s = a +:+ t +:+ b /\ PyStr.lower t = PyStr.lower p.

(** [c] is one of the characters of [s]. *)
Fixpoint has_char (c : ascii) (s : string) : bool :=
  match s with
  | EmptyString => false
  | String d s' => Ascii.eqb d c || has_char c s'
  end.

(** The exception that ends the iteration over a stream, if one does. *)
Fixpoint raised (documents : doc_stream) : option string :=
  match documents with
  | Done => None
  | Raise e => Some e
  | Yield _ rest => raised rest
  end.

(** The documents a stream hands out before it ends or raises. *)
Fixpoint yielded (documents : doc_stream) : list yaml :=
  match documents with
  | Done => []
  | Raise _ => []
  | Yield doc rest => doc :: yielded rest
  end.

(** What the documents of a list add for a file of the given path. *)
Definition fqdns_of_documents (file_path : path) (docs : list yaml)
    : list string :=
  flat_map (fun doc =>
              if truthy doc
              then extract_fqdn_recursive doc
                     (is_ingress_context file_path)
                     (is_kustomization_context file_path)
              else []) docs.

(** [a] may stand before [b] in a list sorted by [key]. *)
Definition key_le {A} (key : A -> string) (a b : A) : Prop :=
  PyStr.le (key a) (key b).

(** [endpoint["fqdn"] == f] *)
Definition has_fqdn (f : string) (endpoint : endpoint_info) : bool :=
  String.eqb (info_fqdn endpoint) f.

(** The endpoint that checks the url [u]. *)
Definition has_url (u : string) (e : endpoint) : bool :=
  String.eqb (url e) u.



(** * Properties *)

(** ** The script on small inputs *)

Example patch_value_line :
  extract_fqdn_recursive
    (YDict [(PStr "patch", YScalar (PStr "- op: replace
  path: /spec/rules/0/host
  value: api.example.net
"))]) false true
  = ["api.example.net"].
Proof. reflexivity. Qed.

Example patch_outside_kustomization :
  extract_fqdn_recursive
    (YDict [(PStr "patch", YScalar (PStr "value: api.example.net"))])
    true false
  = [].
Proof. reflexivity. Qed.

Example value_outside_kustomization :
  extract_fqdn_recursive
    (YDict [(PStr "value", YScalar (PStr "foo.bar.com"))]) false false
  = [].
Proof. reflexivity. Qed.

Example ingress_rules :
  extract_fqdn_recursive
    (YDict
       [(PStr "kind", YScalar (PStr "Ingress"));
        (PStr "spec",
         YDict
           [(PStr "tls",
             YList [YDict [(PStr "hosts",
                            YList [YScalar (PStr "wiki.cedille.club")])]]);
            (PStr "rules",
             YList [YDict [(PStr "host", YScalar (PStr "wiki.cedille.club"));
                           (PStr "http",
                            YDict [(PStr "path", YScalar (PStr "/"))])]])])])
    true false
  = ["wiki.cedille.club"; "wiki.cedille.club"].
Proof. reflexivity. Qed.

Example filter_rejects :
  map is_valid_fqdn
    ["admin@cedille.club"; "ghcr.io/cedille/app"; "Chart-Example.LOCAL";
     "localhost"; "{{ .Values.host }}"; "$(HOST).cedille.club";
     "api.example.net"]
  = [false; false; false; false; false; false; true].
Proof. reflexivity. Qed.

Example template_file_skipped :
  find_fqdn_in_yaml ["apps"; "demo"; "templates"; "ingress.yaml"]
    (Yield (YDict [(PStr "host", YScalar (PStr "demo.cedille.club"))]) Done)
  = ([], []).
Proof. reflexivity. Qed.

Example run_of_two_files :
  map url
    (main_endpoints
       [(["apps"; "wiki"; "prod"; "ingress.yaml"],
         Yield
           (YDict [(PStr "host", YScalar (PStr "wiki.prodv2.cedille.club"))])
           Done);
        (["apps"; "api"; "prod"; "kustomization.yaml"],
         Yield
           (YDict [(PStr "value", YScalar (PStr "api.cedille.club"));
                   (PStr "host", YScalar (PStr "wiki.prodv2.cedille.club"))])
           Done)])
  = ["https://api.cedille.club"; "https://wiki.prodv2.cedille.club"].
Proof. reflexivity. Qed.

(** ** Facts about the string operations *)

Section StrFacts.

Implicit Types (s t p a b : string) (c d : ascii).

Lemma append_nil_l s : "" +:+ s = s.
Proof. reflexivity. Qed.

Lemma append_cons c s t : String c s +:+ t = String c (s +:+ t).
Proof. reflexivity. Qed.

Lemma append_nil_r s : s +:+ "" = s.
Proof. induction s as [|c s IH]; [done|]. by rewrite append_cons, IH. Qed.

Lemma append_assoc s t p : (s +:+ t) +:+ p = s +:+ t +:+ p.
Proof.
  induction s as [|c s IH]; [done|]. by rewrite !append_cons, IH.
Qed.

Lemma append_inj_l p s t : p +:+ s = p +:+ t -> s = t.
Proof.
  induction p as [|c p IH]; [done|].
  rewrite !append_cons. intros [= H]. auto.
Qed.

(** [s.startswith(p)] holds exactly when [s] is [p] followed by something. *)
Lemma startswith_iff s p :
  PyStr.startswith s p = true <-> exists t, s = p +:+ t.
Proof.
  revert s. induction p as [|a p IH]; intros s; simpl.
  - split; [intros _; by exists s | by destruct s].
  - destruct s as [|b s].
    + split; [done | intros [t Ht]; discriminate].
    + simpl. rewrite andb_true_iff, Ascii.eqb_eq, IH. split.
      * intros [-> [t ->]]. by exists t.
      * intros [t Ht]. rewrite append_cons in Ht.
        injection Ht as -> ->. eauto.
Qed.

Lemma startswith_cons c s d p :
  PyStr.startswith (String c s) (String d p)
  = Ascii.eqb d c && PyStr.startswith s p.
Proof. reflexivity. Qed.

Lemma contains_nil p :
  PyStr.contains p "" = PyStr.startswith "" p.
Proof. unfold PyStr.contains. apply orb_false_r. Qed.

Lemma contains_cons p c s :
  PyStr.contains p (String c s)
  = PyStr.startswith (String c s) p || PyStr.contains p s.
Proof. reflexivity. Qed.

(** [p in s] holds exactly when [s] splits around a copy of [p]. *)
Lemma contains_iff p s :
  PyStr.contains p s = true <-> exists a b, s = a +:+ p +:+ b.
Proof.
  induction s as [|c s IH]; [rewrite contains_nil | rewrite contains_cons].
  - rewrite startswith_iff. split.
    + intros [t Ht]. by exists "", t.
    + intros [[|c a] [b Hb]]; [by exists b | discriminate].
  - rewrite orb_true_iff, startswith_iff, IH. split.
    + intros [[t Ht] | (a & b & ->)].
      * by exists "", t.
      * by exists (String c a), b.
    + intros [[|d a] [b Hb]].
      * left. by exists b.
      * right. rewrite append_cons in Hb. injection Hb as -> ->. eauto.
Qed.

Lemma contains_false_cons p c s :
  PyStr.contains p (String c s) = false -> PyStr.contains p s = false.
Proof. rewrite contains_cons. by intros [_ ?]%orb_false_iff. Qed.

Lemma lower_append s t :
  PyStr.lower (s +:+ t) = PyStr.lower s +:+ PyStr.lower t.
Proof.
  induction s as [|c s IH]; [done|].
  rewrite append_cons. simpl. by rewrite append_cons, IH.
Qed.

(** A split of [lower s] comes from a split of [s]. *)
Lemma lower_split s a b :
  PyStr.lower s = a +:+ b ->
  exists a' b', s = a' +:+ b' /\ PyStr.lower a' = a /\ PyStr.lower b' = b.
Proof.
  revert s. induction a as [|c a IH]; intros s H.
  - by exists "", s.
  - destruct s as [|d s]; [discriminate|].
    rewrite append_cons in H. simpl in H. injection H as Hc Hs.
    destruct (IH _ Hs) as (a' & b' & -> & Ha & Hb).
    exists (String d a'), b'. simpl. by rewrite Hc, Ha.
Qed.

End StrFacts.

Lemma flat_map_Forall_ext {A B} (f g : A -> list B) (l : list A) :
  Forall (fun x => f x = g x) l -> flat_map f l = flat_map g l.
Proof.
  induction 1 as [|x l Hx _ IH]; [done|]. simpl. by rewrite Hx, IH.
Qed.

Lemma extract_dict_app before after ing kus :
  extract_fqdn_recursive (YDict (before ++ after)) ing kus
  = extract_fqdn_recursive (YDict before) ing kus
    ++ extract_fqdn_recursive (YDict after) ing kus.
Proof. simpl. apply flat_map_app. Qed.

Lemma extract_dict_cons kv items ing kus :
  extract_fqdn_recursive (YDict (kv :: items)) ing kus
  = entry_fqdns ing kus kv ++ extract_fqdn_recursive (YDict items) ing kus.
Proof. unfold entry_fqdns. simpl. by rewrite app_nil_r. Qed.

(** ** The extractor and the ingress flag *)

(** C8: for every parsed document and every value of the kustomization
    flag, the extractor returns the same list whether the ingress flag is
    true or false. *)
Theorem extract_ignores_ingress_flag (obj : yaml) (kus : bool) :
  extract_fqdn_recursive obj true kus = extract_fqdn_recursive obj false kus.
Proof.
  induction obj as [v | items IH | items IH] using yaml_nested_ind.
  - reflexivity.
  - simpl. by apply flat_map_Forall_ext.
  - simpl. apply flat_map_Forall_ext.
    eapply Forall_impl; [exact IH|].
    intros [key value] Hv. simpl in Hv.
    repeat (match goal with
            | |- context [match ?o with Some _ => _ | None => _ end] =>
                destruct o; [reflexivity|]
            end).
    exact Hv.
Qed.

(** ** The synthesizer *)

(** C9: the endpoint built for an FQDN is the same whatever the app name
    and the source file passed along with it. *)
Theorem create_simple_endpoint_ignores_provenance
    (fqdn app_name source_file app_name' source_file' : string) :
  create_simple_endpoint fqdn app_name source_file
  = create_simple_endpoint fqdn app_name' source_file'.
Proof. reflexivity. Qed.

Lemma split_nonempty (sep : ascii) (s : string) : PyStr.split sep s <> [].
Proof.
  destruct s as [|c s]; simpl; [done|].
  destruct (Ascii.eqb c sep); [done|].
  by destruct (PyStr.split sep s).
Qed.

(** The label before the first dot. *)
Lemma first_label_spec (s : string) :
  PyStr.contains "." s = true ->
  exists rest,
    s = first_label s +:+ "." +:+ rest
    /\ PyStr.contains "." (first_label s) = false.
Proof.
  unfold first_label. induction s as [|c s IH].
  - discriminate.
  - intros H. rewrite contains_cons in H.
    change (PyStr.split "." (String c s)) with
      (if Ascii.eqb c "." then "" :: PyStr.split "." s
       else match PyStr.split "." s with
            | h :: t => String c h :: t
            | [] => [String c ""]
            end).
    destruct (Ascii.eqb_spec c ".") as [-> | Hc].
    + exists s. split; reflexivity.
    + assert (Hs : PyStr.contains "." s = true).
      { apply orb_true_iff in H as [H | H]; [|done].
        rewrite startswith_cons in H. apply andb_true_iff in H as [H _].
        apply Ascii.eqb_eq in H. congruence. }
      destruct (IH Hs) as (rest & Heq & Hno).
      destruct (PyStr.split "." s) as [|h t] eqn:E; cbn [List.hd] in *.
      * by apply split_nonempty in E.
      * exists rest. split.
        -- rewrite append_cons. f_equal. exact Heq.
        -- rewrite contains_cons. apply orb_false_iff. split; [|done].
           rewrite startswith_cons. apply andb_false_iff. left.
           apply Ascii.eqb_neq. congruence.
Qed.

(** C7: for an FQDN with a dot, the endpoint's name is the text before the
    first dot, followed by [-prod] when the FQDN contains [prodv2]; the url
    is [https://] and the FQDN; interval, conditions and alerts are fixed.
    [app.prodv2.example.net] is named [app-prod] and
    [svc.cluster.internal] is named [svc]. *)
Theorem create_simple_endpoint_spec :
  (forall fqdn app_name source_file : string,
     PyStr.contains "." fqdn = true ->
     exists label rest,
       fqdn = label +:+ "." +:+ rest
       /\ PyStr.contains "." label = false
       /\ create_simple_endpoint fqdn app_name source_file
          = {| name := if PyStr.contains "prodv2" fqdn
                       then label +:+ "-prod" else label;
               url := "https://" +:+ fqdn;
               interval := "5m";
               conditions := ["[STATUS] == 200"; "[RESPONSE_TIME] < 3000"];
               alerts := [{| alert_type := "discord";
                             failure_threshold := 3;
                             success_threshold := 2 |}] |})
  /\ (forall app_name source_file,
        name (create_simple_endpoint "app.prodv2.example.net"
                app_name source_file) = "app-prod")
  /\ (forall app_name source_file,
        name (create_simple_endpoint "svc.cluster.internal"
                app_name source_file) = "svc").
Proof.
  split; [|split; reflexivity].
  intros fqdn app_name source_file Hdot.
  destruct (first_label_spec fqdn Hdot) as (rest & Heq & Hno).
  exists (first_label fqdn), rest. repeat split; [exact Heq | exact Hno].
Qed.

Lemma create_simple_endpoint_spec_witness :
  exists label rest,
    "api.prodv2.cedille.club" = label +:+ "." +:+ rest
    /\ PyStr.contains "." label = false
    /\ create_simple_endpoint "api.prodv2.cedille.club" "api" "apps/api/prod/ingress.yaml"
       = {| name := if PyStr.contains "prodv2" "api.prodv2.cedille.club"
                    then label +:+ "-prod" else label;
            url := "https://" +:+ "api.prodv2.cedille.club";
            interval := "5m";
            conditions := ["[STATUS] == 200"; "[RESPONSE_TIME] < 3000"];
            alerts := [{| alert_type := "discord";
                          failure_threshold := 3;
                          success_threshold := 2 |}] |}.
Proof.
  apply (proj1 create_simple_endpoint_spec). reflexivity.
Defined.

(** ** Keys of a mapping *)

(** Under a key without a rule, the extractor goes on into the value. *)
Lemma unrecognized_key_recurses (key : scalar) (v : yaml) (ing kus : bool) :
  key_in key recognized_keys = false ->
  entry_fqdns ing kus (key, v) = extract_fqdn_recursive v ing kus.
Proof.
  intros H. unfold key_in, recognized_keys in H. simpl in H.
  repeat (apply orb_false_iff in H as [? H]).
  unfold entry_fqdns, key_in. simpl.
  repeat match goal with
         | E : key_eq key _ = false |- _ => rewrite E; clear E
         end.
  simpl. apply app_nil_r.
Qed.

Lemma path_key_entry (v : yaml) (ing kus : bool) :
  entry_fqdns ing kus (PStr "path", v)
  = match as_str v with
    | Some _ => []
    | None => extract_fqdn_recursive v ing kus
    end.
Proof.
  unfold entry_fqdns. simpl. destruct (as_str v); [done | apply app_nil_r].
Qed.

(** C10: the [path] key is skipped only when it holds a string.  When its
    value is not a string (a mapping or a sequence in particular), the entry
    adds what the extractor finds inside the value, as an entry under a key
    without a rule does. *)
Theorem path_key_recurses_into_containers
    (before after : list (scalar * yaml)) (v : yaml) (ing kus : bool) :
  as_str v = None ->
  extract_fqdn_recursive (YDict (before ++ (PStr "path", v) :: after)) ing kus
  = extract_fqdn_recursive (YDict before) ing kus
    ++ extract_fqdn_recursive v ing kus
    ++ extract_fqdn_recursive (YDict after) ing kus
  /\ (forall key : scalar,
        key_in key recognized_keys = false ->
        entry_fqdns ing kus (PStr "path", v) = entry_fqdns ing kus (key, v)).
Proof.
  intros Hv. split.
  - rewrite extract_dict_app, extract_dict_cons, path_key_entry. by rewrite Hv.
  - intros key Hkey.
    rewrite path_key_entry, Hv. symmetry.
    by apply unrecognized_key_recurses.
Qed.

Lemma path_key_recurses_into_containers_witness :
  extract_fqdn_recursive
    (YDict ([(PStr "kind", YScalar (PStr "Ingress"))]
            ++ (PStr "path",
                YDict [(PStr "host", YScalar (PStr "api.cedille.club"))])
            :: [(PStr "hosts", YList [YScalar (PStr "www.cedille.club")])]))
    false false
  = ["api.cedille.club"; "www.cedille.club"].
Proof.
  etransitivity.
  - apply (path_key_recurses_into_containers
             [(PStr "kind", YScalar (PStr "Ingress"))]
             [(PStr "hosts", YList [YScalar (PStr "www.cedille.club")])]
             (YDict [(PStr "host", YScalar (PStr "api.cedille.club"))])
             false false).
    reflexivity.
  - reflexivity.
Defined.

(** A [path] key holding a string adds nothing. *)
Lemma path_key_string_skipped
    (before after : list (scalar * yaml)) (s : string) (ing kus : bool) :
  extract_fqdn_recursive
    (YDict (before ++ (PStr "path", YScalar (PStr s)) :: after)) ing kus
  = extract_fqdn_recursive (YDict before) ing kus
    ++ extract_fqdn_recursive (YDict after) ing kus.
Proof. by rewrite extract_dict_app, extract_dict_cons, path_key_entry. Qed.

(** ** Inline patches *)

(** Where [old] does not occur, [replace] changes nothing. *)
Lemma replace_from_absent (old new s : string) :
  PyStr.contains old s = false -> PyStr.replace_from old new 0 s = s.
Proof.
  induction s as [|c s IH]; [done|].
  rewrite contains_cons. intros [Hstart Hrest]%orb_false_iff.
  change (PyStr.replace_from old new 0 (String c s))
    with (if PyStr.startswith (String c s) old
          then new +:+ PyStr.replace_from old new (String.length old - 1) s
          else String c (PyStr.replace_from old new 0 s)).
  rewrite Hstart. f_equal. by apply IH.
Qed.

(** A patch line with one [value: ] only, at its start, gives the text
    after it. *)
Lemma patch_line_single_occurrence (line rest : string) :
  PyStr.strip line = "value: " +:+ rest ->
  PyStr.contains "value: " rest = false ->
  patch_line line = keep (PyStr.strip rest).
Proof.
  intros Hline Hrest. unfold patch_line. rewrite Hline.
  replace (PyStr.startswith ("value: " +:+ rest) "value: ") with true
    by (symmetry; apply startswith_iff; by exists rest).
  change (PyStr.replace "value: " "" ("value: " +:+ rest))
    with (PyStr.replace_from "value: " "" 0 rest).
  by rewrite replace_from_absent.
Qed.

(** C1, at the patch line [value: a.value: b.net] in kustomization context:
    the text after the prefix is [a.value: b.net], which passes the string
    rule and the filter, but [replace] removes the second [value: ] as well
    and the extractor returns [a.b.net]. *)
Theorem patch_line_replace_removes_inner_occurrence :
  let line := "value: a.value: b.net" in
  PyStr.strip line = "value: " +:+ "a.value: b.net"
  /\ PyStr.strip "a.value: b.net" = "a.value: b.net"
  /\ accepts "a.value: b.net" = true
  /\ extract_fqdn_recursive
       (YDict [(PStr "patch", YScalar (PStr line))]) false true
     = ["a.b.net"].
Proof. repeat split; vm_compute; reflexivity. Qed.

(** ** Occurrences, stated without the code's tests *)

Lemma contains_false_iff (p s : string) :
  PyStr.contains p s = false <-> ~ occurs p s.
Proof.
  rewrite <- not_true_iff_false. unfold occurs. by rewrite contains_iff.
Qed.

Lemma startswith_false_iff (s p : string) :
  PyStr.startswith s p = false <-> ~ starts_with p s.
Proof.
  rewrite <- not_true_iff_false. unfold starts_with. by rewrite startswith_iff.
Qed.

(** Against a pattern written in lower case, looking in [lower s] is
    looking in [s] with case ignored. *)
Lemma contains_lower_iff (p s : string) :
  PyStr.lower p = p ->
  PyStr.contains p (PyStr.lower s) = true <-> occurs_ignoring_case p s.
Proof.
  intros Hp. rewrite contains_iff. unfold occurs_ignoring_case. split.
  - intros (a & b & H).
    apply lower_split in H as (a' & r & -> & Ha & Hr).
    apply lower_split in Hr as (t & b' & -> & Ht & Hb).
    exists a', t, b'. split; [done | congruence].
  - intros (a & t & b & -> & Ht).
    exists (PyStr.lower a), (PyStr.lower b).
    rewrite !lower_append. congruence.
Qed.

Lemma existsb_false_iff {A} (f : A -> bool) (l : list A) :
  existsb f l = false <-> forall x, In x l -> f x = false.
Proof.
  rewrite <- not_true_iff_false, existsb_exists. split.
  - intros H x Hx. apply not_true_iff_false. intros Hf. apply H. eauto.
  - intros H (x & Hx & Hf). rewrite (H x Hx) in Hf. discriminate.
Qed.

Lemma invalid_patterns_lower (pattern : string) :
  In pattern invalid_patterns -> PyStr.lower pattern = pattern.
Proof.
  unfold invalid_patterns. simpl.
  intros H. repeat (destruct H as [<- | H]; [reflexivity|]). destruct H.
Qed.

(** The filter as one conjunction of tests. *)
Lemma is_valid_fqdn_unfold (fqdn : string) :
  is_valid_fqdn fqdn
  = negb (PyStr.contains "@" fqdn)
    && negb (existsb (fun registry => PyStr.startswith fqdn registry)
               docker_registries)
    && negb (existsb (fun pattern =>
                        PyStr.contains pattern (PyStr.lower fqdn))
               invalid_patterns)
    && PyStr.contains "." fqdn
    && negb (PyStr.contains "{" fqdn)
    && negb (PyStr.contains "}" fqdn)
    && negb (PyStr.startswith fqdn "{{")
    && negb (PyStr.contains "$(" fqdn).
Proof.
  unfold is_valid_fqdn.
  destruct (PyStr.contains "@" fqdn); [reflexivity|].
  destruct (existsb _ docker_registries); [reflexivity|].
  destruct (existsb _ invalid_patterns); [reflexivity|].
  destruct (PyStr.contains "." fqdn); [|reflexivity].
  destruct (PyStr.contains "{" fqdn); [reflexivity|].
  destruct (PyStr.contains "}" fqdn); [reflexivity|].
  destruct (PyStr.startswith fqdn "{{"); [reflexivity|].
  destruct (PyStr.contains "$(" fqdn); reflexivity.
Qed.

(** ** The validity filter *)

(** C4: the filter accepts a string exactly when it has no [@], begins with
    none of the four registry hosts, has none of the nine deny-list patterns
    in it with case ignored, has a dot, has no brace and no [$(], and does
    not begin with two opening braces. *)
Theorem is_valid_fqdn_iff (fqdn : string) :
  is_valid_fqdn fqdn = true <->
    ~ occurs "@" fqdn
    /\ (forall registry,
          In registry ["ghcr.io"; "docker.io"; "registry.k8s.io"; "quay.io"] ->
          ~ starts_with registry fqdn)
    /\ (forall pattern,
          In pattern ["example.com"; "example.local"; "chart-example.local";
                      "localhost"; "127.0.0.1"; "0.0.0.0"; ".local";
                      "example.org"; "test.com"] ->
          ~ occurs_ignoring_case pattern fqdn)
    /\ occurs "." fqdn
    /\ ~ occurs "{" fqdn
    /\ ~ occurs "}" fqdn
    /\ ~ occurs "$(" fqdn
    /\ ~ starts_with "{{" fqdn.
Proof.
  rewrite is_valid_fqdn_unfold.
  rewrite !andb_true_iff, !negb_true_iff.
  rewrite !contains_false_iff, startswith_false_iff, !existsb_false_iff.
  rewrite contains_iff. fold (occurs "." fqdn).
  split.
  - intros (((((((Hat & Hreg) & Hpat) & Hdot) & Hl) & Hr) & Hst) & Hd).
    repeat split; try assumption.
    + intros registry Hin. apply startswith_false_iff. by apply Hreg.
    + intros pattern Hin Hocc.
      apply contains_lower_iff in Hocc; [|by apply invalid_patterns_lower].
      specialize (Hpat pattern Hin). simpl in Hpat. congruence.
  - intros (Hat & Hreg & Hpat & Hdot & Hl & Hr & Hd & Hst).
    repeat split; try assumption.
    + intros registry Hin. apply startswith_false_iff. by apply Hreg.
    + intros pattern Hin. apply not_true_iff_false. intros Hc.
      apply (Hpat pattern Hin).
      apply contains_lower_iff; [by apply invalid_patterns_lower | done].
Qed.

(** ** Substrings of a joined path *)

Section JoinFacts.

Implicit Types (s x y pat : string) (c d : ascii).

Lemma startswith_nil s : PyStr.startswith s "" = true.
Proof. by destruct s. Qed.

(** A prefix free of [c] ends before the first [c]. *)
Lemma startswith_before_char x c y pat :
  has_char c pat = false ->
  PyStr.startswith (x +:+ String c y) pat = true ->
  PyStr.startswith x pat = true.
Proof.
  revert x. induction pat as [|a pat IH]; intros x Hc H.
  - apply startswith_nil.
  - change (Ascii.eqb a c || has_char c pat = false) in Hc.
    apply orb_false_iff in Hc as [Ha Hc].
    destruct x as [|d x].
    + rewrite append_nil_l, startswith_cons in H.
      apply andb_true_iff in H as [H _].
      rewrite H in Ha. discriminate.
    + rewrite append_cons, startswith_cons in H.
      apply andb_true_iff in H as [Hd H].
      rewrite startswith_cons, Hd. simpl. by apply IH.
Qed.

(** An occurrence free of [c] lies on one side of a [c]. *)
Lemma contains_beside_char x c y pat :
  has_char c pat = false ->
  PyStr.contains pat (x +:+ String c y) = true ->
  PyStr.contains pat x = true \/ PyStr.contains pat y = true.
Proof.
  intros Hc. induction x as [|d x IH]; intros H.
  - rewrite append_nil_l, contains_cons in H.
    apply orb_true_iff in H as [H | H]; [left | by right].
    rewrite contains_nil.
    apply (startswith_before_char "" c y pat Hc H).
  - rewrite append_cons, contains_cons in H.
    apply orb_true_iff in H as [H | H].
    + left. rewrite contains_cons. apply orb_true_iff. left.
      apply (startswith_before_char (String d x) c y pat Hc H).
    + destruct (IH H) as [Hx | Hy]; [left | by right].
      rewrite contains_cons, Hx. apply orb_true_r.
Qed.

Lemma join_cons_cons sep p q rest :
  PyStr.join sep (p :: q :: rest) = p +:+ sep +:+ PyStr.join sep (q :: rest).
Proof. reflexivity. Qed.

(** A part of a joined string is a piece of it. *)
Lemma join_part sep (parts : list string) part :
  In part parts -> exists a b, PyStr.join sep parts = a +:+ part +:+ b.
Proof.
  induction parts as [|p [|q rest] IH]; intros Hin.
  - destruct Hin.
  - destruct Hin as [-> | []]. exists "", "". by rewrite append_nil_r.
  - rewrite join_cons_cons. destruct Hin as [-> | Hin].
    + by exists "", (sep +:+ PyStr.join sep (q :: rest)).
    + destruct (IH Hin) as (a & b & ->).
      exists (p +:+ sep +:+ a), b. by rewrite !append_assoc.
Qed.

(** What a joined string contains, when the separator is not a character
    of the pattern, one of its parts contains. *)
Lemma contains_join_iff c pat (parts : list string) :
  has_char c pat = false ->
  PyStr.contains pat "" = false ->
  PyStr.contains pat (PyStr.join (String c "") parts) = true
  <-> exists part, In part parts /\ PyStr.contains pat part = true.
Proof.
  intros Hc Hne. split.
  - induction parts as [|p [|q rest] IH]; intros H.
    + change (PyStr.contains pat "" = true) in H. congruence.
    + exists p. split; [by left | exact H].
    + rewrite join_cons_cons in H.
      apply contains_beside_char in H as [H | H]; [| |exact Hc].
      * exists p. split; [by left | exact H].
      * destruct (IH H) as (part & Hin & Hp).
        exists part. split; [by right | exact Hp].
  - intros (part & Hin & Hp).
    apply contains_iff in Hp as (a & b & ->).
    destruct (join_part (String c "") parts _ Hin) as (a' & b' & ->).
    apply contains_iff. exists (a' +:+ a), (b +:+ b').
    by rewrite !append_assoc.
Qed.

Lemma lower_join (parts : list string) :
  PyStr.lower (PyStr.join "/" parts)
  = PyStr.join "/" (map PyStr.lower parts).
Proof.
  induction parts as [|p [|q rest] IH]; [done | done |].
  rewrite join_cons_cons, !lower_append, IH. reflexivity.
Qed.

End JoinFacts.

(** The test of a context flag: [pat in str(file_path).lower()] holds
    exactly when [pat] occurs, case ignored, in one part of the path. *)
Lemma contains_lower_path (pat : string) (file_path : path) :
  PyStr.lower pat = pat ->
  has_char "/" pat = false ->
  PyStr.contains pat "" = false ->
  PyStr.contains pat (PyStr.lower (str_path file_path)) = true
  <-> exists part, In part file_path /\ occurs_ignoring_case pat part.
Proof.
  intros Hlow Hsep Hne. unfold str_path.
  rewrite lower_join, (contains_join_iff "/" pat _ Hsep Hne). split.
  - intros (part & Hin & Hp).
    apply in_map_iff in Hin as (part' & <- & Hin').
    exists part'. split; [done|]. by apply contains_lower_iff.
  - intros (part & Hin & Hp).
    exists (PyStr.lower part). split; [by apply in_map|].
    by apply contains_lower_iff.
Qed.

(** ** The context flags *)

(** C3 as stated fails: under a directory whose name has [ingress.yaml] in
    it, a file of any base name is in ingress context. *)
Lemma context_flags_not_from_base_name_only :
  let file_path := ["apps"; "demo"; "ingress.yaml.d"; "values.yml"] in
  (base_name file_path = "values.yml"
   /\ PyStr.contains "ingress.yaml" (PyStr.lower (base_name file_path)) = false
   /\ is_ingress_context file_path = true)
  /\ ~ (forall file_path : path,
          (is_ingress_context file_path = true
           <-> occurs_ignoring_case "ingress.yaml" (base_name file_path))
          /\ (is_kustomization_context file_path = true
              <-> occurs_ignoring_case "kustomization.yaml"
                    (base_name file_path))).
Proof.
  intros file_path. split; [by repeat split|].
  intros H. destruct (H file_path) as [[H1 _] _].
  specialize (H1 eq_refl).
  apply contains_lower_iff in H1; [|reflexivity].
  vm_compute in H1. discriminate.
Qed.

(** C3, amended: each flag is read off the whole path string.  The ingress
    flag is set exactly when some part of the path, a directory name or the
    base name, has [ingress.yaml] in it with case ignored; the kustomization
    flag likewise with [kustomization.yaml]. *)
Theorem context_flags_from_whole_path (file_path : path) :
  (is_ingress_context file_path = true
   <-> exists part, In part file_path
                    /\ occurs_ignoring_case "ingress.yaml" part)
  /\ (is_kustomization_context file_path = true
      <-> exists part, In part file_path
                       /\ occurs_ignoring_case "kustomization.yaml" part).
Proof.
  split; apply contains_lower_path; reflexivity.
Qed.

(** ** Files that stop parsing *)

Lemma load_loop_spec (file_path : path) (documents : doc_stream)
    (fqdns : list string) :
  load_loop file_path documents fqdns
  = (fqdns ++ fqdns_of_documents file_path (yielded documents),
     raised documents).
Proof.
  revert fqdns. induction documents as [|doc rest IH|e]; intros fqdns; simpl.
  - by rewrite app_nil_r.
  - rewrite IH. unfold fqdns_of_documents. simpl.
    destruct (truthy doc); [by rewrite <- app_assoc | done].
  - by rewrite app_nil_r.
Qed.

Lemma find_fqdn_in_yaml_spec (file_path : path) (content : doc_stream) :
  is_template_path file_path = false ->
  find_fqdn_in_yaml file_path content
  = (fqdns_of_documents file_path (yielded content),
     match raised content with
     | Some e =>
         ["Erreur lors de la lecture de " +:+ str_path file_path
            +:+ ": " +:+ e]
     | None => []
     end).
Proof.
  intros Htpl. unfold find_fqdn_in_yaml. rewrite Htpl.
  rewrite load_loop_spec. simpl. by destruct (raised content).
Qed.

(** The state after a walk is the state before it, extended. *)
Lemma fold_visit (files : list (path * doc_stream))
    (all_fqdns : list endpoint_info) (out : list string) :
  fold_left visit files (all_fqdns, out)
  = (all_fqdns ++ fst (walk files), out ++ snd (walk files)).
Proof.
  unfold walk. revert all_fqdns out.
  induction files as [|[yaml_file content] files IH]; intros all_fqdns out.
  - simpl. by rewrite !app_nil_r.
  - simpl. destruct (find_fqdn_in_yaml yaml_file content) as [fqdns printed].
    rewrite IH, (IH (records_of yaml_file fqdns)). simpl.
    by rewrite <- !app_assoc.
Qed.

Lemma walk_app (before after : list (path * doc_stream)) :
  walk (before ++ after)
  = (fst (walk before) ++ fst (walk after),
     snd (walk before) ++ snd (walk after)).
Proof.
  unfold walk at 1. rewrite fold_left_app.
  fold (walk before). destruct (walk before) as [all_fqdns out].
  apply fold_visit.
Qed.

Lemma walk_cons (yaml_file : path) (content : doc_stream)
    (after : list (path * doc_stream)) :
  walk ((yaml_file, content) :: after)
  = (records_of yaml_file (fst (find_fqdn_in_yaml yaml_file content))
       ++ fst (walk after),
     ("Analyse du fichier: " +:+ str_path yaml_file)
       :: snd (find_fqdn_in_yaml yaml_file content) ++ snd (walk after)).
Proof.
  unfold walk at 1. simpl.
  destruct (find_fqdn_in_yaml yaml_file content) as [fqdns printed].
  rewrite fold_visit. reflexivity.
Qed.

(** C2 as stated fails: a file whose second document does not parse still
    gives the FQDN of its first document. *)
Lemma parse_error_does_not_empty_the_file :
  let file_path := ["apps"; "demo"; "prod"; "ingress.yaml"] in
  let content :=
    Yield (YDict [(PStr "host", YScalar (PStr "demo.cedille.club"))])
      (Raise "mapping values are not allowed here") in
  (is_template_path file_path = false
   /\ raised content = Some "mapping values are not allowed here"
   /\ fst (find_fqdn_in_yaml file_path content) = ["demo.cedille.club"])
  /\ ~ (forall (file_path : path) (content : doc_stream) (e : string),
          is_template_path file_path = false ->
          raised content = Some e ->
          fst (find_fqdn_in_yaml file_path content) = []).
Proof.
  intros file_path content. split; [by repeat split|].
  intros H.
  specialize
    (H file_path content "mapping values are not allowed here"
       eq_refl eq_refl).
  vm_compute in H. discriminate.
Qed.

(** C2, amended: when reading a file raises, the loader prints the error
    with the file path and returns what the documents handed out before the
    error gave (nothing when there was none), and the walk goes on: the
    files before and after contribute as they do without it. *)
Theorem parse_error_keeps_earlier_documents
    (file_path : path) (content : doc_stream) (e : string)
    (before after : list (path * doc_stream)) :
  is_template_path file_path = false ->
  raised content = Some e ->
  let kept := fqdns_of_documents file_path (yielded content) in
  let message :=
    "Erreur lors de la lecture de " +:+ str_path file_path +:+ ": " +:+ e in
  find_fqdn_in_yaml file_path content = (kept, [message])
  /\ (yielded content = [] -> fst (find_fqdn_in_yaml file_path content) = [])
  /\ walk (before ++ (file_path, content) :: after)
     = (fst (walk before) ++ records_of file_path kept ++ fst (walk after),
        snd (walk before)
          ++ ("Analyse du fichier: " +:+ str_path file_path) :: message
               :: snd (walk after)).
Proof.
  intros Htpl Hraise kept message.
  assert (Hfind : find_fqdn_in_yaml file_path content = (kept, [message])).
  { rewrite find_fqdn_in_yaml_spec by done. by rewrite Hraise. }
  split; [exact Hfind | split].
  - intros Hnone. rewrite Hfind. simpl. unfold kept. by rewrite Hnone.
  - rewrite walk_app, walk_cons, Hfind. reflexivity.
Qed.

Lemma parse_error_keeps_earlier_documents_witness :
  find_fqdn_in_yaml ["apps"; "demo"; "prod"; "ingress.yaml"]
    (Yield (YDict [(PStr "host", YScalar (PStr "demo.cedille.club"))])
       (Raise "mapping values are not allowed here"))
  = (["demo.cedille.club"],
     ["Erreur lors de la lecture de apps/demo/prod/ingress.yaml: mapping values are not allowed here"]).
Proof.
  apply (parse_error_keeps_earlier_documents
           ["apps"; "demo"; "prod"; "ingress.yaml"]
           (Yield (YDict [(PStr "host", YScalar (PStr "demo.cedille.club"))])
              (Raise "mapping values are not allowed here"))
           "mapping values are not allowed here" [] []);
    reflexivity.
Defined.

(** ** The order on strings *)

Section StrOrder.

Implicit Types (a b c : string).

Lemma ltb_cons x a y b :
  PyStr.ltb (String x a) (String y b)
  = (N_of_ascii x <? N_of_ascii y)%N || Ascii.eqb x y && PyStr.ltb a b.
Proof. reflexivity. Qed.

Lemma N_of_ascii_inj (x y : ascii) : N_of_ascii x = N_of_ascii y -> x = y.
Proof.
  intros H. rewrite <- (ascii_N_embedding x), <- (ascii_N_embedding y).
  by rewrite H.
Qed.

Lemma ltb_irrefl a : PyStr.ltb a a = false.
Proof.
  induction a as [|x a IH]; [done|].
  by rewrite ltb_cons, N.ltb_irrefl, IH, andb_false_r.
Qed.

Lemma ltb_trans a b c :
  PyStr.ltb a b = true -> PyStr.ltb b c = true -> PyStr.ltb a c = true.
Proof.
  revert b c. induction a as [|x a IH]; intros [|y b] [|z c]; try done.
  rewrite !ltb_cons, !orb_true_iff, !andb_true_iff, !N.ltb_lt, !Ascii.eqb_eq.
  intros [Hxy | [-> Hab]] [Hyz | [-> Hbc]].
  - left. lia.
  - by left.
  - by left.
  - right. split; [done|]. by apply (IH b).
Qed.

Lemma ltb_asym a b : PyStr.ltb a b = true -> PyStr.ltb b a = false.
Proof.
  intros H. apply not_true_iff_false. intros H'.
  pose proof (ltb_trans _ _ _ H H') as Hcyc.
  rewrite ltb_irrefl in Hcyc. discriminate.
Qed.

Lemma ltb_connex a b :
  PyStr.ltb a b = false -> PyStr.ltb b a = false -> a = b.
Proof.
  revert b. induction a as [|x a IH]; intros [|y b]; try done.
  rewrite !ltb_cons, !orb_false_iff, !andb_false_iff, !N.ltb_ge.
  intros [Hyx Hab] [Hxy Hba].
  assert (x = y) as -> by (apply N_of_ascii_inj; lia).
  rewrite Ascii.eqb_refl in Hab, Hba.
  destruct Hab as [? | Hab]; [done|]. destruct Hba as [? | Hba]; [done|].
  f_equal. by apply IH.
Qed.

Lemma le_refl a : PyStr.le a a.
Proof. apply ltb_irrefl. Qed.

Lemma lt_le a b : PyStr.lt a b -> PyStr.le a b.
Proof. apply ltb_asym. Qed.

Lemma le_trans a b c : PyStr.le a b -> PyStr.le b c -> PyStr.le a c.
Proof.
  unfold PyStr.le. intros Hab Hbc.
  apply not_true_iff_false. intros Hca.
  destruct (PyStr.ltb a b) eqn:E.
  - rewrite (ltb_trans _ _ _ Hca E) in Hbc. discriminate.
  - rewrite (ltb_connex _ _ E Hab), Hbc in Hca. discriminate.
Qed.

Lemma le_neq_lt a b : PyStr.le a b -> a <> b -> PyStr.lt a b.
Proof.
  unfold PyStr.le, PyStr.lt. intros Hle Hne.
  apply not_false_iff_true. intros Hlt. apply Hne. by apply ltb_connex.
Qed.

(** A common prefix does not change the order. *)
Lemma ltb_append p a b : PyStr.ltb (p +:+ a) (p +:+ b) = PyStr.ltb a b.
Proof.
  induction p as [|x p IH]; [done|].
  by rewrite !append_cons, ltb_cons, N.ltb_irrefl, Ascii.eqb_refl, IH.
Qed.

End StrOrder.

(** ** Sorting by key *)

Section SortFacts.

Context {A : Type} (key : A -> string).

Lemma sort_insert_perm x (l : list A) : sort_insert key x l ≡ₚ x :: l.
Proof.
  induction l as [|y l IH]; simpl; [done|].
  destruct (PyStr.ltb (key x) (key y)); [done|].
  rewrite IH. apply Permutation_swap.
Qed.

Lemma fold_sort_insert_perm (l sorted : list A) :
  fold_left (fun sorted x => sort_insert key x sorted) l sorted
  ≡ₚ sorted ++ l.
Proof.
  revert sorted. induction l as [|x l IH]; intros sorted; simpl.
  - by rewrite app_nil_r.
  - rewrite IH, sort_insert_perm. simpl. apply Permutation_middle.
Qed.

Lemma list_sort_perm (l : list A) : list_sort key l ≡ₚ l.
Proof. apply fold_sort_insert_perm. Qed.

Lemma sort_insert_head x (l : list A) (y : A) :
  (key_le key) y x -> HdRel (key_le key) y l -> HdRel (key_le key) y (sort_insert key x l).
Proof.
  intros Hyx Hl. destruct l as [|z l]; simpl.
  - by constructor.
  - destruct (PyStr.ltb (key x) (key z)); constructor; [done|].
    by inversion Hl.
Qed.

Lemma sort_insert_sorted x (l : list A) :
  Sorted (key_le key) l -> Sorted (key_le key) (sort_insert key x l).
Proof.
  induction 1 as [|y l Hs IH Hhd]; simpl.
  - by repeat constructor.
  - destruct (PyStr.ltb (key x) (key y)) eqn:E.
    + constructor; [by constructor|]. constructor. by apply lt_le.
    + constructor; [exact IH|]. by apply sort_insert_head.
Qed.

Lemma list_sort_sorted (l : list A) : Sorted (key_le key) (list_sort key l).
Proof.
  unfold list_sort.
  assert (H : Sorted (key_le key) (@nil A)) by constructor.
  revert H. generalize (@nil A) as sorted.
  induction l as [|x l IH]; intros sorted H; simpl; [done|].
  apply IH. by apply sort_insert_sorted.
Qed.

Lemma key_le_trans : Relation_Definitions.transitive A (key_le key).
Proof. intros a b c. apply le_trans. Qed.

Lemma sorted_keys (l : list A) :
  Sorted (key_le key) l -> StronglySorted PyStr.le (map key l).
Proof.
  intros H. apply Sorted_StronglySorted in H; [|exact key_le_trans].
  induction H as [|a l Hs IH Hall]; simpl; constructor; [done|].
  by apply Forall_map.
Qed.

End SortFacts.

(** A list in order and without repetition is in strict order. *)
Lemma strictly_sorted (l : list string) :
  StronglySorted PyStr.le l -> NoDup l -> StronglySorted PyStr.lt l.
Proof.
  induction 1 as [|a l Hs IH Hall]; intros Hnd; [constructor|].
  apply NoDup_cons in Hnd as [Hnotin Hnd].
  constructor; [by apply IH|].
  rewrite Forall_forall in *. intros b Hb.
  apply le_neq_lt; [by apply Hall|]. intros ->. done.
Qed.

(** ** Dropping duplicates *)

Lemma find_has_fqdn (all_fqdns : list endpoint_info) (f : string) :
  In f (map info_fqdn all_fqdns) ->
  exists first, List.find (has_fqdn f) all_fqdns = Some first.
Proof.
  induction all_fqdns as [|e rest IH]; simpl; [done|].
  intros [He | Hin].
  - exists e. unfold has_fqdn. by rewrite He, String.eqb_refl.
  - destruct (has_fqdn f e); [by exists e | by apply IH].
Qed.

(** The records of one FQDN in the result of the loop: those already kept
    and, when the FQDN was not seen yet, its first record still to come. *)
Lemma filter_dedup_loop (f : string) (all_fqdns unique_fqdns : list endpoint_info)
    (seen_fqdns : gset string) :
  List.filter (has_fqdn f) (dedup_loop all_fqdns unique_fqdns seen_fqdns)
  = List.filter (has_fqdn f) unique_fqdns
    ++ (if decide (f ∈ seen_fqdns) then []
        else match List.find (has_fqdn f) all_fqdns with
             | Some first => [first]
             | None => []
             end).
Proof.
  revert unique_fqdns seen_fqdns.
  induction all_fqdns as [|e rest IH]; intros unique_fqdns seen_fqdns; simpl.
  - destruct (decide _); by rewrite app_nil_r.
  - destruct (decide (info_fqdn e ∈ seen_fqdns)) as [Hseen | Hnew].
    + rewrite IH. f_equal.
      destruct (decide (f ∈ seen_fqdns)) as [|Hf]; [done|].
      unfold has_fqdn at 2.
      destruct (String.eqb_spec (info_fqdn e) f) as [<- | _]; done.
    + rewrite IH, List.filter_app, <- app_assoc. f_equal. simpl.
      unfold has_fqdn at 1 3.
      destruct (String.eqb_spec (info_fqdn e) f) as [<- | Hne].
      * rewrite decide_True by set_solver.
        by rewrite decide_False by done.
      * simpl. destruct (decide (f ∈ seen_fqdns)) as [Hf | Hf].
        -- by rewrite decide_True by (by apply elem_of_union_l).
        -- rewrite decide_False; [done|].
           rewrite elem_of_union, elem_of_singleton. intros [?|?]; by auto.
Qed.

Lemma dedup_loop_NoDup (all_fqdns unique_fqdns : list endpoint_info)
    (seen_fqdns : gset string) :
  (forall f, f ∈ map info_fqdn unique_fqdns -> f ∈ seen_fqdns) ->
  NoDup (map info_fqdn unique_fqdns) ->
  NoDup (map info_fqdn (dedup_loop all_fqdns unique_fqdns seen_fqdns)).
Proof.
  revert unique_fqdns seen_fqdns.
  induction all_fqdns as [|e rest IH]; intros unique_fqdns seen_fqdns Hseen Hnd;
    simpl; [done|].
  destruct (decide (info_fqdn e ∈ seen_fqdns)) as [Hin | Hnew].
  - by apply IH.
  - apply IH.
    + intros f. rewrite map_app. simpl. rewrite elem_of_app, list_elem_of_singleton.
      intros [Hf | ->]; [|set_solver]. apply elem_of_union_l. by apply Hseen.
    + rewrite map_app. simpl. apply NoDup_app. split; [done|]. split.
      * intros f Hf ->%list_elem_of_singleton. apply Hnew. by apply Hseen.
      * apply NoDup_singleton.
Qed.

Lemma dedup_NoDup (all_fqdns : list endpoint_info) :
  NoDup (map info_fqdn (dedup all_fqdns)).
Proof.
  apply dedup_loop_NoDup; simpl; [|constructor].
  intros f Hf. by apply elem_of_nil in Hf.
Qed.

Lemma filter_Permutation {A} (p : A -> bool) (l l' : list A) :
  l ≡ₚ l' -> List.filter p l ≡ₚ List.filter p l'.
Proof.
  induction 1 as [|x l l' _ IH|x y l|l l' l'' _ IH _ IH']; simpl.
  - done.
  - destruct (p x); by rewrite IH.
  - destruct (p x), (p y); try done. apply Permutation_swap.
  - by rewrite IH.
Qed.

Lemma eqb_append_prefix (p a b : string) :
  String.eqb (p +:+ a) (p +:+ b) = String.eqb a b.
Proof.
  induction p as [|c p IH]; [done|].
  rewrite !append_cons. simpl. by rewrite Ascii.eqb_refl.
Qed.

Lemma url_endpoints_of (unique_fqdns : list endpoint_info) :
  map url (endpoints_of unique_fqdns)
  = map (fun f => "https://" +:+ f) (map info_fqdn unique_fqdns).
Proof.
  unfold endpoints_of. induction unique_fqdns as [|e l IH]; [done|].
  simpl. by rewrite IH.
Qed.

Lemma filter_endpoints_of (f : string) (unique_fqdns : list endpoint_info) :
  List.filter (has_url ("https://" +:+ f)) (endpoints_of unique_fqdns)
  = endpoints_of (List.filter (has_fqdn f) unique_fqdns).
Proof.
  unfold endpoints_of. induction unique_fqdns as [|e l IH]; [done|].
  simpl. unfold has_url at 1, has_fqdn at 1. simpl.
  rewrite eqb_append_prefix.
  destruct (String.eqb (info_fqdn e) f); simpl; by rewrite IH.
Qed.

Lemma NoDup_map_append (p : string) (l : list string) :
  NoDup l -> NoDup (map (fun f => p +:+ f) l).
Proof.
  induction 1 as [|x l Hx _ IH]; simpl; constructor; [|done].
  rewrite list_elem_of_In, in_map_iff. intros (y & Hy & Hin).
  apply append_inj_l in Hy as ->. by apply Hx, list_elem_of_In.
Qed.

Lemma unique_sorted_NoDup (all_fqdns : list endpoint_info) :
  NoDup (map info_fqdn (unique_sorted all_fqdns)).
Proof.
  unfold unique_sorted.
  rewrite (Permutation_map info_fqdn (list_sort_perm info_fqdn _)).
  apply dedup_NoDup.
Qed.

(** ** De-duplication and order of the output *)

(** C5: of the records of one FQDN in the collected list, one is left after
    the duplicates are dropped and the list is sorted, the first in
    traversal order with its source file and app name; one endpoint is made
    for it; no FQDN and no url is twice in the output. *)
Theorem dedup_keeps_first_occurrence
    (all_fqdns : list endpoint_info) (f : string) :
  In f (map info_fqdn all_fqdns) ->
  exists first,
    List.find (has_fqdn f) all_fqdns = Some first
    /\ List.filter (has_fqdn f) (dedup all_fqdns) = [first]
    /\ List.filter (has_fqdn f) (unique_sorted all_fqdns) = [first]
    /\ List.filter (has_url ("https://" +:+ f))
         (endpoints_of (unique_sorted all_fqdns))
       = [create_simple_endpoint f (info_app_name first)
            (info_source_file first)]
    /\ NoDup (map info_fqdn (unique_sorted all_fqdns))
    /\ NoDup (map url (endpoints_of (unique_sorted all_fqdns))).
Proof.
  intros Hin. destruct (find_has_fqdn _ _ Hin) as [first Hfirst].
  assert (Hf : info_fqdn first = f).
  { apply List.find_some in Hfirst as [_ H]. by apply String.eqb_eq in H. }
  assert (Hdedup : List.filter (has_fqdn f) (dedup all_fqdns) = [first]).
  { unfold dedup. rewrite filter_dedup_loop, Hfirst. simpl.
    by rewrite decide_False by set_solver. }
  assert (Hsorted :
            List.filter (has_fqdn f) (unique_sorted all_fqdns) = [first]).
  { apply Permutation_singleton_r. rewrite <- Hdedup.
    apply filter_Permutation, list_sort_perm. }
  exists first. repeat split; try done.
  - rewrite filter_endpoints_of, Hsorted. simpl. by rewrite Hf.
  - apply unique_sorted_NoDup.
  - rewrite url_endpoints_of. apply NoDup_map_append, unique_sorted_NoDup.
Qed.

Lemma dedup_keeps_first_occurrence_witness :
  let all_fqdns :=
    [ {| info_fqdn := "wiki.cedille.club";
         info_source_file := "apps/wiki/prod/ingress.yaml";
         info_app_name := "wiki" |};
      {| info_fqdn := "api.cedille.club";
         info_source_file := "apps/api/prod/ingress.yaml";
         info_app_name := "api" |};
      {| info_fqdn := "wiki.cedille.club";
         info_source_file := "apps/wiki/prod/kustomization.yaml";
         info_app_name := "wiki" |} ] in
  exists first,
    List.find (has_fqdn "wiki.cedille.club") all_fqdns = Some first
    /\ List.filter (has_fqdn "wiki.cedille.club") (dedup all_fqdns) = [first]
    /\ List.filter (has_fqdn "wiki.cedille.club") (unique_sorted all_fqdns)
       = [first]
    /\ List.filter (has_url ("https://" +:+ "wiki.cedille.club"))
         (endpoints_of (unique_sorted all_fqdns))
       = [create_simple_endpoint "wiki.cedille.club" (info_app_name first)
            (info_source_file first)]
    /\ NoDup (map info_fqdn (unique_sorted all_fqdns))
    /\ NoDup (map url (endpoints_of (unique_sorted all_fqdns))).
Proof.
  apply dedup_keeps_first_occurrence. simpl. left. reflexivity.
Defined.

(** C6: the endpoints come out in ascending order of FQDN, whatever the
    order of the files and of the FQDNs in them: the FQDNs of the sorted
    records are in strict ascending order, the endpoints are made of them
    one for one, and so their urls ascend too. *)
Theorem endpoints_sorted_by_fqdn (files : list (path * doc_stream)) :
  let unique_fqdns := unique_sorted (fst (walk files)) in
  main_endpoints files = endpoints_of unique_fqdns
  /\ StronglySorted PyStr.le (map info_fqdn unique_fqdns)
  /\ StronglySorted PyStr.lt (map info_fqdn unique_fqdns)
  /\ map url (main_endpoints files)
     = map (fun f => "https://" +:+ f) (map info_fqdn unique_fqdns)
  /\ StronglySorted PyStr.lt (map url (main_endpoints files)).
Proof.
  intros unique_fqdns.
  assert (Hle : StronglySorted PyStr.le (map info_fqdn unique_fqdns)).
  { apply sorted_keys, list_sort_sorted. }
  assert (Hlt : StronglySorted PyStr.lt (map info_fqdn unique_fqdns)).
  { apply strictly_sorted; [exact Hle | apply unique_sorted_NoDup]. }
  repeat split; try done.
  - apply url_endpoints_of.
  - unfold main_endpoints. fold unique_fqdns. rewrite url_endpoints_of.
    clear Hle. induction Hlt as [|a l Hs IH Hall]; simpl; constructor.
    + exact IH.
    + apply Forall_map. eapply Forall_impl; [exact Hall|].
      intros b Hb. unfold PyStr.lt. simpl. by rewrite ltb_append.
Qed.

(** * Further properties *)

(** ** What the extractor returns *)

Lemma keep_accepted (value : string) :
  Forall (fun f => accepts f = true) (keep value).
Proof.
  unfold keep. destruct (accepts value) eqn:E; repeat constructor. exact E.
Qed.

Lemma patch_line_accepted (line : string) :
  Forall (fun f => accepts f = true) (patch_line line).
Proof.
  unfold patch_line. destruct (PyStr.startswith _ _); [|constructor].
  apply keep_accepted.
Qed.

Lemma extract_accepted (obj : yaml) (ing kus : bool) :
  Forall (fun f => accepts f = true) (extract_fqdn_recursive obj ing kus).
Proof.
  induction obj as [v | items IH | items IH] using yaml_nested_ind.
  - constructor.
  - simpl. apply Forall_flat_map. exact IH.
  - simpl. apply Forall_flat_map.
    eapply Forall_impl; [exact IH|].
    intros [key value] Hv. simpl in Hv.
    repeat (match goal with
            | |- context [match ?o with Some _ => _ | None => _ end] =>
                destruct o
            end);
      try apply keep_accepted; try constructor; try exact Hv.
    + apply Forall_flat_map, Forall_forall. intros item _.
      destruct (as_str item); [apply keep_accepted | constructor].
    + apply Forall_flat_map, Forall_forall. intros line _.
      apply patch_line_accepted.
Qed.

(** X1: every string the extractor returns, for any document and any
    flags, has a dot, does not begin with [http] and passes the validity
    filter. *)
Theorem extract_only_accepted (obj : yaml) (ing kus : bool) :
  Forall (fun f => PyStr.contains "." f = true
                   /\ PyStr.startswith f "http" = false
                   /\ is_valid_fqdn f = true)
    (extract_fqdn_recursive obj ing kus).
Proof.
  eapply Forall_impl; [apply extract_accepted|].
  intros f Hf. unfold accepts in Hf.
  apply andb_true_iff in Hf as [[Hdot Hhttp]%andb_true_iff Hvalid].
  by apply negb_true_iff in Hhttp.
Qed.

Lemma flat_map_sublist {A B} (f g : A -> list B) (l : list A) :
  Forall (fun x => f x `sublist_of` g x) l ->
  flat_map f l `sublist_of` flat_map g l.
Proof.
  induction 1 as [|x l Hx _ IH]; simpl; [done|]. by apply sublist_app.
Qed.

(** X2: the kustomization flag only adds: what the extractor returns
    without it is, in order, part of what it returns with it. *)
Theorem kustomization_context_only_adds (obj : yaml) (ing : bool) :
  extract_fqdn_recursive obj ing false
  `sublist_of` extract_fqdn_recursive obj ing true.
Proof.
  induction obj as [v | items IH | items IH] using yaml_nested_ind.
  - done.
  - simpl. by apply flat_map_sublist.
  - simpl. apply flat_map_sublist.
    eapply Forall_impl; [exact IH|].
    intros [key value] Hv. simpl in Hv.
    rewrite !andb_false_r, !andb_true_r.
    destruct (key_eq key "host"), (key_eq key "commonName"),
      (key_eq key "hosts"), (key_eq key "dnsNames"),
      (key_eq key "value"), (key_eq key "patch"), (key_eq key "path"),
      value as [[| | |s|]|l|d];
      simpl in *; try done; apply sublist_nil_l.
Qed.

(** X3: under [hosts] or [dnsNames], a list is read for its strings only.
    Items that are not strings give nothing: the extractor does not go into
    them, whatever they hold. *)
Theorem hosts_items_not_searched
    (key : string) (l : list yaml) (ing kus : bool) :
  In key ["hosts"; "dnsNames"] ->
  Forall (fun item => as_str item = None) l ->
  entry_fqdns ing kus (PStr key, YList l) = [].
Proof.
  intros Hkey Hl. unfold entry_fqdns.
  assert (Hitems :
            flat_map (fun item => match as_str item with
                                  | Some s => keep s
                                  | None => []
                                  end) l = []).
  { induction Hl as [|item l Hitem _ IH]; simpl; [done|]. by rewrite Hitem. }
  destruct Hkey as [<- | [<- | []]]; simpl; by rewrite Hitems.
Qed.

Lemma hosts_items_not_searched_witness :
  entry_fqdns false false
    (PStr "hosts",
     YList [YDict [(PStr "host", YScalar (PStr "wiki.cedille.club"));
                   (PStr "paths", YList [YScalar (PStr "/")])]])
  = []
  /\ entry_fqdns false false
       (PStr "ingress",
        YList [YDict [(PStr "host", YScalar (PStr "wiki.cedille.club"));
                      (PStr "paths", YList [YScalar (PStr "/")])]])
     = ["wiki.cedille.club"].
Proof.
  split; [|reflexivity].
  apply hosts_items_not_searched.
  - simpl. left. reflexivity.
  - repeat constructor.
Defined.

Lemma valid_has_dot (fqdn : string) :
  is_valid_fqdn fqdn = true -> PyStr.contains "." fqdn = true.
Proof.
  rewrite is_valid_fqdn_unfold, !andb_true_iff. tauto.
Qed.

(** X4: the dot test that guards every [append] never decides: a string is
    collected exactly when it does not begin with [http] and passes the
    validity filter. *)
Theorem accepts_without_dot_test (value : string) :
  accepts value = negb (PyStr.startswith value "http") && is_valid_fqdn value.
Proof.
  unfold accepts.
  destruct (is_valid_fqdn value) eqn:Hvalid.
  - by rewrite (valid_has_dot value Hvalid).
  - by rewrite !andb_false_r.
Qed.

(** X5: a patch line that, trimmed, begins with [value: ] and has no
    second [value: ] after it gives the trimmed text after the prefix, if
    that text is accepted, and nothing else. *)
Theorem patch_line_prefix_once (line rest : string) :
  PyStr.strip line = "value: " +:+ rest ->
  PyStr.contains "value: " rest = false ->
  patch_line line
  = if accepts (PyStr.strip rest) then [PyStr.strip rest] else [].
Proof. apply patch_line_single_occurrence. Qed.

Lemma patch_line_prefix_once_witness :
  patch_line "    value:   wiki.cedille.club  " = ["wiki.cedille.club"].
Proof.
  apply (patch_line_prefix_once "    value:   wiki.cedille.club  "
           "  wiki.cedille.club");
    reflexivity.
Defined.

(** ** What the loader returns *)

Lemma join_app (sep : string) (before after : list string) :
  before <> [] -> after <> [] ->
  PyStr.join sep (before ++ after)
  = PyStr.join sep before +:+ sep +:+ PyStr.join sep after.
Proof.
  intros Hb Ha. induction before as [|p [|q rest] IH]; [done| |].
  - destruct after as [|a after]; [done|]. reflexivity.
  - change ((p :: q :: rest) ++ after) with (p :: q :: (rest ++ after)).
    rewrite !join_cons_cons.
    change (q :: rest ++ after) with ((q :: rest) ++ after).
    rewrite IH by done. by rewrite !append_assoc.
Qed.

Lemma templates_segment_is_template_path (before after : list string) :
  before <> [] -> after <> [] ->
  is_template_path (before ++ "templates" :: after) = true.
Proof.
  intros Hb Ha. unfold is_template_path, str_path.
  apply orb_true_iff. left. apply contains_iff.
  rewrite join_app by done.
  destruct after as [|a after]; [done|]. rewrite join_cons_cons.
  exists (PyStr.join "/" before), (PyStr.join "/" (a :: after)).
  reflexivity.
Qed.

(** X6: a file under a directory named [templates] gives nothing and
    prints nothing, whatever it holds and even when it does not parse: the
    loader returns before it opens the file. *)
Theorem template_file_never_read
    (before after : list string) (content : doc_stream) :
  before <> [] -> after <> [] ->
  find_fqdn_in_yaml (before ++ "templates" :: after) content = ([], []).
Proof.
  intros Hb Ha. unfold find_fqdn_in_yaml.
  by rewrite templates_segment_is_template_path.
Qed.

Lemma template_file_never_read_witness :
  find_fqdn_in_yaml
    (["apps"; "chart"] ++ "templates" :: ["ingress.yaml"])
    (Yield (YDict [(PStr "host", YScalar (PStr "wiki.cedille.club"))])
       (Raise "found character that cannot start any token"))
  = ([], []).
Proof. apply template_file_never_read; discriminate. Defined.





Lemma find_fqdn_in_yaml_accepted (file_path : path) (content : doc_stream) :
  Forall (fun f => accepts f = true)
    (fst (find_fqdn_in_yaml file_path content)).
Proof.
  destruct (is_template_path file_path) eqn:E.
  - unfold find_fqdn_in_yaml. rewrite E. constructor.
  - rewrite find_fqdn_in_yaml_spec by done. simpl.
    apply Forall_flat_map, Forall_forall. intros doc _.
    destruct (truthy doc); [apply extract_accepted | constructor].
Qed.

(** ** What the walk collects *)

Lemma walk_records (files : list (path * doc_stream)) :
  fst (walk files)
  = flat_map (fun file =>
                records_of (fst file)
                  (fst (find_fqdn_in_yaml (fst file) (snd file)))) files.
Proof.
  induction files as [|[yaml_file content] files IH]; [done|].
  rewrite walk_cons. simpl. by rewrite IH.
Qed.


(** X8: the records collected are exactly those of the FQDNs the loader
    returns for the files visited, each with the path of its file as source
    and the app name read off that path. *)
Theorem walk_collects_the_files (files : list (path * doc_stream))
    (r : endpoint_info) :
  In r (fst (walk files))
  <-> exists file_path content f,
        In (file_path, content) files
        /\ In f (fst (find_fqdn_in_yaml file_path content))
        /\ r = {| info_fqdn := f;
                  info_source_file := str_path file_path;
                  info_app_name := app_name_of file_path |}.
Proof.
  rewrite walk_records, in_flat_map. unfold records_of. split.
  - intros ([file_path content] & Hfile & Hr). simpl in Hr.
    apply in_map_iff in Hr as (f & <- & Hf).
    by exists file_path, content, f.
  - intros (file_path & content & f & Hfile & Hf & ->).
    exists (file_path, content). split; [done|]. simpl.
    apply in_map_iff. by exists f.
Qed.



(** ** What de-duplication and sorting keep *)

Lemma dedup_loop_sublist (all_fqdns unique_fqdns : list endpoint_info)
    (seen_fqdns : gset string) :
  dedup_loop all_fqdns unique_fqdns seen_fqdns
  `sublist_of` unique_fqdns ++ all_fqdns.
Proof.
  revert unique_fqdns seen_fqdns.
  induction all_fqdns as [|e rest IH]; intros unique_fqdns seen_fqdns; simpl.
  - by rewrite app_nil_r.
  - destruct (decide _).
    + etransitivity; [apply IH|].
      apply sublist_app; [done | by apply sublist_cons].
    + etransitivity; [apply IH|]. by rewrite <- app_assoc.
Qed.

(** X10: the loop that drops duplicates keeps records as they are and in
    traversal order: its result is a subsequence of the collected list. *)
Theorem dedup_keeps_traversal_order (all_fqdns : list endpoint_info) :
  dedup all_fqdns `sublist_of` all_fqdns.
Proof. apply (dedup_loop_sublist all_fqdns [] ∅). Qed.

Lemma dedup_loop_elem (f : string)
    (all_fqdns unique_fqdns : list endpoint_info) (seen_fqdns : gset string) :
  f ∈ map info_fqdn (dedup_loop all_fqdns unique_fqdns seen_fqdns)
  <-> f ∈ map info_fqdn unique_fqdns
      \/ (f ∈ map info_fqdn all_fqdns /\ f ∉ seen_fqdns).
Proof.
  revert unique_fqdns seen_fqdns.
  induction all_fqdns as [|e rest IH]; intros unique_fqdns seen_fqdns; simpl.
  - rewrite elem_of_nil. tauto.
  - rewrite elem_of_cons. destruct (decide (info_fqdn e ∈ seen_fqdns)).
    + rewrite IH. split; [tauto|].
      intros [? | [[-> | ?] ?]]; tauto.
    + rewrite IH, map_app, elem_of_app. simpl.
      rewrite list_elem_of_singleton, not_elem_of_union, not_elem_of_singleton.
      destruct (decide (f = info_fqdn e)) as [-> | Hne]; tauto.
Qed.

Lemma unique_sorted_elem (f : string) (all_fqdns : list endpoint_info) :
  In f (map info_fqdn (unique_sorted all_fqdns))
  <-> In f (map info_fqdn all_fqdns).
Proof.
  rewrite <- !list_elem_of_In. unfold unique_sorted.
  rewrite (Permutation_map info_fqdn (list_sort_perm info_fqdn _)).
  unfold dedup. rewrite dedup_loop_elem. simpl.
  rewrite elem_of_nil.
  pose proof (not_elem_of_empty (C := gset string) f). tauto.
Qed.

(** X11: dropping duplicates and sorting neither loses nor invents an
    FQDN: the FQDNs of the output are the FQDNs collected. *)
Theorem output_has_the_collected_fqdns
    (files : list (path * doc_stream)) (u : string) :
  In u (map url (main_endpoints files))
  <-> exists f, In f (map info_fqdn (fst (walk files)))
                /\ u = "https://" +:+ f.
Proof.
  unfold main_endpoints. rewrite url_endpoints_of, in_map_iff.
  split; intros (f & H1 & H2).
  - exists f. split; [by apply unique_sorted_elem | done].
  - exists f. split; [done | by apply unique_sorted_elem].
Qed.

Lemma dedup_loop_fixed (all_fqdns unique_fqdns : list endpoint_info)
    (seen_fqdns : gset string) :
  NoDup (map info_fqdn all_fqdns) ->
  (forall f, f ∈ map info_fqdn all_fqdns -> f ∉ seen_fqdns) ->
  dedup_loop all_fqdns unique_fqdns seen_fqdns = unique_fqdns ++ all_fqdns.
Proof.
  revert unique_fqdns seen_fqdns.
  induction all_fqdns as [|e rest IH];
    intros unique_fqdns seen_fqdns Hnd Hnew; simpl.
  - by rewrite app_nil_r.
  - simpl in Hnd. apply NoDup_cons in Hnd as [He Hnd].
    rewrite decide_False by (apply Hnew; simpl; apply elem_of_cons; by left).
    rewrite IH, <- app_assoc; [done | done |].
    intros f Hf. rewrite not_elem_of_union, not_elem_of_singleton. split.
    + apply Hnew. simpl. apply elem_of_cons. by right.
    + intros ->. done.
Qed.

Lemma sort_insert_last {A} (key : A -> string) (x : A) (sorted : list A) :
  Forall (fun y => key_le key y x) sorted ->
  sort_insert key x sorted = sorted ++ [x].
Proof.
  induction 1 as [|y sorted Hy _ IH]; simpl; [done|].
  unfold key_le, PyStr.le in Hy. by rewrite Hy, IH.
Qed.

Lemma sorted_before {A} (R : A -> A -> Prop) (sorted rest : list A) (x : A) :
  StronglySorted R (sorted ++ x :: rest) -> Forall (fun y => R y x) sorted.
Proof.
  induction sorted as [|y sorted IH]; simpl; intros H; [constructor|].
  apply StronglySorted_inv in H as [Hs Hall]. constructor.
  - rewrite Forall_app, Forall_cons in Hall. tauto.
  - by apply IH.
Qed.

Lemma fold_sort_insert_sorted {A} (key : A -> string) (l sorted : list A) :
  StronglySorted (key_le key) (sorted ++ l) ->
  fold_left (fun sorted x => sort_insert key x sorted) l sorted = sorted ++ l.
Proof.
  revert sorted. induction l as [|x l IH]; intros sorted H; simpl.
  - by rewrite app_nil_r.
  - rewrite (sort_insert_last key x sorted) by (by eapply sorted_before).
    rewrite IH; rewrite <- app_assoc; done.
Qed.

Lemma list_sort_sorted_fixed {A} (key : A -> string) (l : list A) :
  Sorted (key_le key) l -> list_sort key l = l.
Proof.
  intros H. apply (fold_sort_insert_sorted key l []). simpl.
  apply Sorted_StronglySorted; [apply key_le_trans | exact H].
Qed.

(** X12: the de-duplicated, sorted list is a fixed point: dropping
    duplicates and sorting once more changes nothing. *)
Theorem unique_sorted_idempotent (all_fqdns : list endpoint_info) :
  unique_sorted (unique_sorted all_fqdns) = unique_sorted all_fqdns.
Proof.
  unfold unique_sorted at 1.
  assert (Hdedup : dedup (unique_sorted all_fqdns) = unique_sorted all_fqdns).
  { unfold dedup. rewrite dedup_loop_fixed; [done | |].
    - apply unique_sorted_NoDup.
    - intros f _. apply not_elem_of_empty. }
  rewrite Hdedup. apply list_sort_sorted_fixed.
  unfold unique_sorted. apply list_sort_sorted.
Qed.

(** X13: the number of endpoints, which the script prints, is the number
    of distinct FQDNs collected. *)
Theorem endpoint_count (files : list (path * doc_stream)) :
  length (main_endpoints files)
  = size (list_to_set (map info_fqdn (fst (walk files))) : gset string).
Proof.
  unfold main_endpoints, endpoints_of. rewrite length_map.
  rewrite <- (length_map info_fqdn).
  rewrite <- (size_list_to_set (C := gset string))
    by apply unique_sorted_NoDup.
  f_equal. apply set_eq. intros f.
  rewrite !elem_of_list_to_set, !list_elem_of_In.
  apply unique_sorted_elem.
Qed.

(** ** What the output depends on *)

Lemma strictly_sorted_ext (l1 l2 : list string) :
  StronglySorted PyStr.lt l1 -> StronglySorted PyStr.lt l2 ->
  (forall x, In x l1 <-> In x l2) -> l1 = l2.
Proof.
  intros H1. revert l2.
  induction H1 as [|a l1 Hs1 IH Ha]; intros l2 H2 Hext.
  - destruct l2 as [|b l2]; [done|]. destruct (proj2 (Hext b)). by left.
  - destruct H2 as [|b l2 Hs2 Hb].
    { destruct (proj1 (Hext a)). by left. }
    rewrite Forall_forall in Ha, Hb.
    assert (a = b) as <-.
    { destruct (proj1 (Hext a)) as [<- | Hin]; [by left | done |].
      destruct (proj2 (Hext b)) as [<- | Hin']; [by left | done |].
      apply list_elem_of_In, Hb in Hin. apply list_elem_of_In, Ha in Hin'.
      apply ltb_asym in Hin. unfold PyStr.lt in Hin'. congruence. }
    f_equal. apply IH; [done|]. intros x. split; intros Hx.
    + destruct (proj1 (Hext x)) as [<- | Hin]; [by right | | done].
      apply list_elem_of_In, Ha in Hx. unfold PyStr.lt in Hx.
      by rewrite ltb_irrefl in Hx.
    + destruct (proj2 (Hext x)) as [<- | Hin]; [by right | | done].
      apply list_elem_of_In, Hb in Hx. unfold PyStr.lt in Hx.
      by rewrite ltb_irrefl in Hx.
Qed.

Lemma unique_sorted_strict (all_fqdns : list endpoint_info) :
  StronglySorted PyStr.lt (map info_fqdn (unique_sorted all_fqdns)).
Proof.
  apply strictly_sorted; [|apply unique_sorted_NoDup].
  apply sorted_keys, list_sort_sorted.
Qed.

Lemma endpoints_of_fqdns (unique_fqdns : list endpoint_info) :
  endpoints_of unique_fqdns
  = map (fun f => create_simple_endpoint f "" "")
      (map info_fqdn unique_fqdns).
Proof. unfold endpoints_of. by rewrite map_map. Qed.

Lemma endpoints_of_unique_sorted_ext (all1 all2 : list endpoint_info) :
  (forall f, In f (map info_fqdn all1) <-> In f (map info_fqdn all2)) ->
  endpoints_of (unique_sorted all1) = endpoints_of (unique_sorted all2).
Proof.
  intros Hext. rewrite !endpoints_of_fqdns. f_equal.
  apply strictly_sorted_ext; try apply unique_sorted_strict.
  intros f. by rewrite !unique_sorted_elem.
Qed.

(** X14: the endpoints depend on the set of FQDNs collected and on nothing
    else: two collected lists with the same FQDNs, in any order, any number
    of times and from any files, give the same endpoints. *)
Theorem endpoints_depend_on_fqdn_set (all1 all2 : list endpoint_info) :
  (forall f, In f (map info_fqdn all1) <-> In f (map info_fqdn all2)) ->
  endpoints_of (unique_sorted all1) = endpoints_of (unique_sorted all2).
Proof. apply endpoints_of_unique_sorted_ext. Qed.

Lemma endpoints_depend_on_fqdn_set_witness :
  endpoints_of
    (unique_sorted
       [ {| info_fqdn := "wiki.cedille.club";
            info_source_file := "apps/wiki/prod/ingress.yaml";
            info_app_name := "wiki" |};
         {| info_fqdn := "api.cedille.club";
            info_source_file := "apps/api/prod/ingress.yaml";
            info_app_name := "api" |} ])
  = endpoints_of
      (unique_sorted
         [ {| info_fqdn := "api.cedille.club";
              info_source_file := "apps/gateway/base/kustomization.yaml";
              info_app_name := "gateway" |};
           {| info_fqdn := "wiki.cedille.club";
              info_source_file := "apps/wiki/prod/ingress.yaml";
              info_app_name := "wiki" |};
           {| info_fqdn := "api.cedille.club";
              info_source_file := "apps/api/prod/ingress.yaml";
              info_app_name := "api" |} ]).
Proof.
  apply endpoints_depend_on_fqdn_set. intros f. simpl. tauto.
Defined.

Lemma walk_fqdns_elem (files : list (path * doc_stream)) (f : string) :
  In f (map info_fqdn (fst (walk files)))
  <-> exists file, In file files
                   /\ In f (fst (find_fqdn_in_yaml (fst file) (snd file))).
Proof.
  rewrite walk_records, in_map_iff. split.
  - intros (r & <- & Hr). apply in_flat_map in Hr as (file & Hfile & Hr).
    exists file. split; [done|]. unfold records_of in Hr.
    apply in_map_iff in Hr as (f & <- & Hf). done.
  - intros (file & Hfile & Hf).
    exists {| info_fqdn := f;
              info_source_file := str_path (fst file);
              info_app_name := app_name_of (fst file) |}.
    split; [done|]. apply in_flat_map. exists file. split; [done|].
    unfold records_of. apply in_map_iff. by exists f.
Qed.

(** X15: the output depends on which files are visited, not on the order
    in which the globs enumerate them nor on a file being visited twice. *)
Theorem output_independent_of_enumeration
    (files files' : list (path * doc_stream)) :
  (forall file, In file files <-> In file files') ->
  main_endpoints files = main_endpoints files'.
Proof.
  intros Hsame. unfold main_endpoints. apply endpoints_of_unique_sorted_ext.
  intros f. rewrite !walk_fqdns_elem.
  split; intros (file & Hfile & Hf); exists file; split; try done;
    by apply Hsame.
Qed.

Lemma output_independent_of_enumeration_witness :
  let wiki :=
    (["apps"; "wiki"; "prod"; "ingress.yaml"],
     Yield (YDict [(PStr "host", YScalar (PStr "wiki.cedille.club"))]) Done) in
  let api :=
    (["apps"; "api"; "prod"; "ingress.yml"],
     Yield (YDict [(PStr "host", YScalar (PStr "api.cedille.club"))]) Done) in
  main_endpoints [wiki; api] = main_endpoints [api; wiki; api].
Proof.
  intros wiki api. apply output_independent_of_enumeration.
  intros file. simpl. tauto.
Defined.

(** X16: every endpoint of the output checks [https://] followed by a
    string that has a dot, does not begin with [http] and passes the
    validity filter. *)
Theorem output_only_accepted (files : list (path * doc_stream)) :
  Forall (fun e => exists f,
            e = create_simple_endpoint f "" ""
            /\ PyStr.contains "." f = true
            /\ PyStr.startswith f "http" = false
            /\ is_valid_fqdn f = true)
    (main_endpoints files).
Proof.
  apply Forall_forall. intros e He. apply list_elem_of_In in He.
  unfold main_endpoints in He. rewrite endpoints_of_fqdns in He.
  apply in_map_iff in He as (f & <- & Hf).
  apply unique_sorted_elem, walk_fqdns_elem in Hf as (file & _ & Hf).
  pose proof (find_fqdn_in_yaml_accepted (fst file) (snd file)) as Hacc.
  rewrite Forall_forall in Hacc.
  apply list_elem_of_In, Hacc in Hf. unfold accepts in Hf.
  apply andb_true_iff in Hf as [[Hdot Hhttp]%andb_true_iff Hvalid].
  apply negb_true_iff in Hhttp. by exists f.
Qed.

(** ** Endpoint names *)

Lemma first_label_cons (c : ascii) (s : string) :
  Ascii.eqb c "." = false ->
  first_label (String c s) = String c (first_label s).
Proof.
  intros Hc. unfold first_label.
  change (PyStr.split "." (String c s)) with
    (if Ascii.eqb c "." then "" :: PyStr.split "." s
     else match PyStr.split "." s with
          | h :: t => String c h :: t
          | [] => [String c ""]
          end).
  rewrite Hc. destruct (PyStr.split "." s) eqn:E; [|done].
  by apply split_nonempty in E.
Qed.

Lemma no_dot_cons (c : ascii) (s : string) :
  PyStr.contains "." (String c s) = false ->
  Ascii.eqb c "." = false /\ PyStr.contains "." s = false.
Proof.
  rewrite contains_cons, startswith_cons.
  intros [Hc Hs]%orb_false_iff. split; [|done].
  rewrite andb_true_r in Hc. by rewrite Ascii.eqb_sym.
Qed.

Lemma first_label_no_dot (s : string) :
  PyStr.contains "." s = false -> first_label s = s.
Proof.
  induction s as [|c s IH]; [done|].
  intros [Hc Hs]%no_dot_cons. by rewrite first_label_cons, IH.
Qed.

Lemma first_label_append (label rest : string) :
  PyStr.contains "." label = false ->
  first_label (label +:+ "." +:+ rest) = label.
Proof.
  induction label as [|c label IH]; [done|].
  intros [Hc Hs]%no_dot_cons.
  by rewrite append_cons, first_label_cons, IH.
Qed.

(** X17: the name of an endpoint is read off the first label and the
    presence of [prodv2] only, so it does not identify the endpoint: two
    FQDNs with the same first label, both with or both without [prodv2],
    get the same name, while their urls differ. *)
Theorem endpoint_name_from_first_label
    (label rest1 rest2 app1 source1 app2 source2 : string) :
  PyStr.contains "." label = false ->
  PyStr.contains "prodv2" (label +:+ "." +:+ rest1)
  = PyStr.contains "prodv2" (label +:+ "." +:+ rest2) ->
  name (create_simple_endpoint (label +:+ "." +:+ rest1) app1 source1)
  = name (create_simple_endpoint (label +:+ "." +:+ rest2) app2 source2)
  /\ (rest1 <> rest2 ->
      url (create_simple_endpoint (label +:+ "." +:+ rest1) app1 source1)
      <> url (create_simple_endpoint (label +:+ "." +:+ rest2) app2 source2)).
Proof.
  intros Hlabel Hprod. split.
  - unfold create_simple_endpoint. simpl.
    by rewrite Hprod, !first_label_append.
  - intros Hne Hurl. simpl in Hurl. apply Hne.
    by apply append_inj_l, append_inj_l, (append_inj_l ".") in Hurl.
Qed.

Lemma endpoint_name_from_first_label_witness :
  name (create_simple_endpoint "api.cedille.club" "api"
          "apps/api/prod/ingress.yaml") = "api"
  /\ name (create_simple_endpoint "api.etsmtl.ca" "portal"
             "apps/portal/prod/ingress.yaml") = "api".
Proof.
  destruct (endpoint_name_from_first_label "api" "cedille.club" "etsmtl.ca"
              "api" "apps/api/prod/ingress.yaml"
              "portal" "apps/portal/prod/ingress.yaml"
              eq_refl eq_refl) as [Hname _].
  split; [reflexivity | exact (eq_trans (eq_sym Hname) eq_refl)].
Defined.

(** X18: for a string without a dot, the name of the endpoint is the whole
    string, followed by [-prod] when it contains [prodv2]. *)
Theorem endpoint_name_without_dot (fqdn app_name source_file : string) :
  PyStr.contains "." fqdn = false ->
  name (create_simple_endpoint fqdn app_name source_file)
  = if PyStr.contains "prodv2" fqdn then fqdn +:+ "-prod" else fqdn.
Proof.
  intros Hdot. unfold create_simple_endpoint. simpl.
  by rewrite first_label_no_dot.
Qed.

Lemma endpoint_name_without_dot_witness :
  name (create_simple_endpoint "prodv2-gateway" "" "") = "prodv2-gateway-prod".
Proof. apply (endpoint_name_without_dot "prodv2-gateway" "" ""). reflexivity. Defined.
